(** * RandomList: alignment costs of a random integer sample

    A shallow embedding of [aoc-statistics.py].  Python integers are
    unbounded and are modelled by [Z]; the numbers that may be Python floats
    (the median of an even-sized sample, every value that went through the
    true division [/ 2]) are modelled by exact rationals [Q], compared with
    [==] the way Python compares an [int] with a [float].  Every float the
    program computes from the samples of its driver (at most 100 items in
    [0, 1000]) is an integer or a half-integer far below 2^53, where float
    arithmetic is exact.

    The dictionary [_compressed_items] is a [gmap Z Z]; the order in which
    a Python dictionary is traversed does not matter to the sums of exact
    numbers that are the only use the program makes of it. *)

From Stdlib Require Import ZArith QArith Qabs Qround Lia Psatz.
From stdpp Require Import base decidable list sorting fin_maps gmap.

Local Open Scope Z_scope.

(** ** Exceptions and results *)

Inductive exn : Type :=
  | ValueError        (* random.randint on an empty range, min() of an empty list *)
  | StatisticsError.  (* statistics.mean / statistics.median of no data *)

Inductive result (A : Type) : Type :=
  | Ok (a : A)
  | Raise (e : exn).
Arguments Ok {A} a.
Arguments Raise {A} e.

#[global] Instance result_ret : MRet result := fun A a => Ok a.
#[global] Instance result_bind : MBind result := fun A B k r =>
  match r with
  | Ok a => k a
  | Raise e => Raise e
  end.
#[global] Instance result_fmap : FMap result := fun A B f r =>
  match r with
  | Ok a => Ok (f a)
  | Raise e => Raise e
  end.

(** ** The object *)

Record RandomList : Type := mkRandomList {
  upper_bound : Z;
  lower_bound : Z;
  _items : list Z;
  _compressed_items : gmap Z Z
}.

(** ** The random source

    [random.randint lo hi] returns an integer of the inclusive range
    [lo, hi] and raises [ValueError] when the range is empty.  The
    generator is a stream of raw words, consumed one per draw. *)

Definition rng : Type := nat -> Z.

Definition randint (lo hi : Z) (g : rng) : result (Z * rng) :=
  if decide (hi < lo) then Raise ValueError
  else Ok (lo + g O mod (hi - lo + 1), fun n => g (S n)).

(** [if item in d: d[item] += 1 else: d[item] = 1] *)
Definition tally (item : Z) (d : gmap Z Z) : gmap Z Z :=
  match d !! item with
  | Some c => <[item := c + 1]> d
  | None => <[item := 1]> d
  end.

(** [self._items.append(item)] followed by the update of the dictionary. *)
Definition record_item (item : Z) (self : RandomList) : RandomList :=
  {| upper_bound := upper_bound self;
     lower_bound := lower_bound self;
     _items := _items self ++ [item];
     _compressed_items := tally item (_compressed_items self) |}.

(** The body of [for i in range(items_c)], run [n] times. *)
Fixpoint draw_items (n : nat) (lo hi : Z) (self : RandomList) (g : rng)
  : result (RandomList * rng) :=
  match n with
  | O => Ok (self, g)
  | S n' =>
      '(item, g') ← randint lo hi g;
      draw_items n' lo hi (record_item item self) g'
  end.

Definition __init__ (items_c lo hi : Z) (g : rng) : result (RandomList * rng) :=
  draw_items (Z.to_nat items_c) lo hi
    {| upper_bound := hi; lower_bound := lo; _items := []; _compressed_items := ∅ |} g.

(** ** Python built-ins and the [statistics] module *)

(** [sum(xs)]: starts from 0 and adds from left to right. *)
Definition py_sum (xs : list Q) : Q := fold_left Qplus xs 0%Q.

(** [range(start, stop)]: empty when [stop <= start]. *)
Definition range (start stop : Z) : list Z := seqZ start (stop - start).

(** [min(xs, key=key)]: the first element whose key is minimal,
    [ValueError] on an empty list. *)
Fixpoint min_from {A : Type} (key : A -> Q) (best : A) (xs : list A) : A :=
  match xs with
  | [] => best
  | x :: xs' =>
      min_from key (if Qlt_le_dec (key x) (key best) then x else best) xs'
  end.

Definition py_min {A : Type} (key : A -> Q) (xs : list A) : result A :=
  match xs with
  | [] => Raise ValueError
  | x :: xs' => Ok (min_from key x xs')
  end.

(** [round(x)] of a float: to the nearest integer, ties to the even one. *)
Definition py_round (x : Q) : Z :=
  let f := Qfloor x in
  match (x - inject_Z f ?= 1 # 2)%Q with
  | Lt => f
  | Gt => f + 1
  | Eq => if Z.even f then f else f + 1
  end.

Definition sum_Z (xs : list Z) : Z := foldr Z.add 0 xs.

(** [statistics.mean(data)]: the exact mean of integer data. *)
Definition statistics_mean (data : list Z) : result Q :=
  match data with
  | [] => Raise StatisticsError
  | _ => Ok (sum_Z data # Pos.of_nat (length data))
  end.

(** [statistics.median(data)]: the middle element of the sorted data, or
    the average of the two middle elements when there is an even number. *)
Definition statistics_median (data : list Z) : result Q :=
  let data := merge_sort Z.le data in
  let n := length data in
  if decide (n = 0%nat) then Raise StatisticsError
  else if decide ((n mod 2)%nat = 1%nat) then Ok (inject_Z (nth (n / 2) data 0))
  else
    let i := (n / 2)%nat in
    Ok (inject_Z (nth (i - 1) data 0%Z + nth i data 0%Z)%Z / 2)%Q.

(** ** The methods *)

Definition mean (self : RandomList) : result Z :=
  m ← statistics_mean (_items self);
  mret (py_round (m - 1 / 2)%Q).

Definition median (self : RandomList) : result Q :=
  statistics_median (_items self).

(** What one entry [(pos, count)] of the dictionary adds to each cost. *)
Definition linear_term (target : Q) (entry : Z * Z) : Q :=
  (Qabs (inject_Z entry.1 - target) * inject_Z entry.2)%Q.

Definition progression_term (target : Q) (entry : Z * Z) : Q :=
  (Qabs ((inject_Z entry.1 - target) * (inject_Z entry.1 - target - 1) / 2)
   * inject_Z entry.2)%Q.

Definition linear_fuel_burn (self : RandomList) (target : Q) : Q :=
  py_sum (map (linear_term target) (map_to_list (_compressed_items self))).

Definition arithmetic_progression_burn (self : RandomList) (target : Q) : Q :=
  py_sum (map (progression_term target) (map_to_list (_compressed_items self))).

Definition minimum_burn (self : RandomList) (func : Q -> Q) : result Q :=
  '(min_burn, pos_min_burn) ←
    py_min fst (map (fun j => (func (inject_Z j), j))
                    (range (lower_bound self) (upper_bound self)));
  mret min_burn.

(** ** The two checks of the driver

    [assert (sample.minimum_burn(f) == f(statistic))], as the boolean the
    assertion tests. *)

Definition median_check (sample : RandomList) : result bool :=
  optimum ← minimum_burn sample (linear_fuel_burn sample);
  m ← median sample;
  mret (Qeq_bool optimum (linear_fuel_burn sample m)).

Definition mean_check (sample : RandomList) : result bool :=
  optimum ← minimum_burn sample (arithmetic_progression_burn sample);
  m ← mean sample;
  mret (Qeq_bool optimum (arithmetic_progression_burn sample (inject_Z m))).

(** ** Method calls on the object

    A call takes the object and gives back its result together with the
    object as the call leaves it.  No method other than [__init__] assigns
    to an attribute of [self] or updates [_items] or [_compressed_items] in
    place ([statistics.median] sorts a copy). *)

Inductive call : Type :=
  | call_linear_fuel_burn (target : Q)
  | call_arithmetic_progression_burn (target : Q)
  | call_median
  | call_mean
  | call_minimum_burn (func : RandomList -> Q -> Q).

Definition invoke (c : call) (self : RandomList) : result Q * RandomList :=
  match c with
  | call_linear_fuel_burn t => (Ok (linear_fuel_burn self t), self)
  | call_arithmetic_progression_burn t => (Ok (arithmetic_progression_burn self t), self)
  | call_median => (median self, self)
  | call_mean => (inject_Z <$> mean self, self)
  | call_minimum_burn func => (minimum_burn self (func self), self)
  end.

(** ** Notions used in the statements *)

Definition fails {A : Type} (r : result A) : Prop := exists e, r = Raise e.

(** The dictionary that the constructor has built once it has stored
    [items]. *)
Definition tally_all (items : list Z) : gmap Z Z :=
  fold_left (fun d item => tally item d) items ∅.

(** The values that [n] successive calls of [randint lo hi] return. *)
Fixpoint draws (n : nat) (lo hi : Z) (g : rng) : list Z :=
  match n with
  | O => []
  | S n' => (lo + g O mod (hi - lo + 1)) :: draws n' lo hi (fun k => g (S k))
  end.

(** The sample that [__init__] leaves behind when it returns. *)
Definition built (items_c lo hi : Z) (g : rng) : RandomList :=
  let items := draws (Z.to_nat items_c) lo hi g in
  {| upper_bound := hi; lower_bound := lo;
     _items := items; _compressed_items := tally_all items |}.

(** What the rest of the development needs to know of a constructed
    sample. *)
Record constructed (s : RandomList) : Prop := {
  constructed_range : Forall (fun v => lower_bound s <= v <= upper_bound s) (_items s);
  constructed_dict : _compressed_items s = tally_all (_items s)
}.

Definition counts_sum (d : gmap Z Z) : Z := sum_Z (map snd (map_to_list d)).

Record invariant (s : RandomList) : Prop := {
  invariant_counts : counts_sum (_compressed_items s) = Z.of_nat (length (_items s));
  invariant_keys :
    forall k c, _compressed_items s !! k = Some c -> lower_bound s <= k <= upper_bound s
}.

(** The linear cost as the sum of [|v - target|] over every stored element. *)
Definition raw_linear_cost (items : list Z) (target : Q) : Q :=
  py_sum (map (fun v => Qabs (inject_Z v - target)) items).

(** The same with integer arithmetic, for an integer target. *)
Definition raw_linear_cost_Z (items : list Z) (target : Z) : Z :=
  sum_Z (map (fun v => Z.abs (v - target)) items).

(** The cost of the program's progression formula for one element. *)
Definition raw_progression_cost_Z (items : list Z) (target : Z) : Z :=
  sum_Z (map (fun v => (v - target) * (v - target - 1) / 2) items).


(** [m] is the least of the values that [f] takes on the integers of
    [lo, hi). *)
Definition least_value (f : Q -> Q) (lo hi : Z) (m : Q) : Prop :=
  (exists x, lo <= x < hi /\ m = f (inject_Z x))
  /\ forall y, lo <= y < hi -> (m <= f (inject_Z y))%Q.

(** The lower of the middle elements of the sorted sample. *)
Definition lower_middle (items : list Z) : Z :=
  nth ((length items - 1) / 2) (merge_sort Z.le items) 0.

(** ** The driver

    What the driver prints is kept as a list of lines, each with the values
    that the program formats into it.  The generator and the output are the
    state of the run; the output written before an exception stays
    written. *)

Inductive line : Type :=
  | line_seed (seed : Z)                                (* Random seed: ... *)
  | line_test (number size : Z) (items : list Z)        (* TEST ... List of ... items: ... *)
  | line_failed_median (median_yields optimum : Q)      (* FAILED: Median was not ... *)
  | line_failed_mean (mean_yields optimum : Q)          (* FAILED: "Mean" was not ... *)
  | line_passed.                                        (* PASSED *)

Record world : Type := mkWorld {
  gen : rng;
  out : list line
}.

Definition io (A : Type) : Type := world -> result A * world.

#[global] Instance io_ret : MRet io := fun A a w => (Ok a, w).
#[global] Instance io_bind : MBind io := fun A B k m w =>
  match m w with
  | (Ok a, w') => k a w'
  | (Raise e, w') => (Raise e, w')
  end.

Definition print (l : line) : io unit :=
  fun w => (Ok tt, {| gen := gen w; out := out w ++ [l] |}).

(** A call into the [random] module. *)
Definition random {A : Type} (draw : rng -> result (A * rng)) : io A :=
  fun w =>
    match draw (gen w) with
    | Ok (a, g') => (Ok a, {| gen := g'; out := out w |})
    | Raise e => (Raise e, w)
    end.

(** A method call that reads the sample and may raise. *)
Definition evaluate {A : Type} (r : result A) : io A := fun w => (r, w).

(** [random.randrange(stop)]: an integer of [0, stop), [ValueError] when
    there is none. *)
Definition randrange (stop : Z) (g : rng) : result (Z * rng) :=
  if decide (stop <= 0) then Raise ValueError
  else Ok (g O mod stop, fun n => g (S n)).

(** [random.seed(seed)]: from now on the generator is the one that the
    seed determines; [stream] is that correspondence. *)
Definition seed_generator (stream : Z -> rng) (seed : Z) : io unit :=
  fun w => (Ok tt, {| gen := stream seed; out := out w |}).

(** [try: assert (...) except AssertionError: print(...); passed = False],
    returning whether the assertion held.  The handler evaluates the two
    costs again for its message. *)
Definition assert_median (sample : RandomList) : io bool :=
  holds ← evaluate (median_check sample);
  if holds : bool then mret true
  else
    m ← evaluate (median sample);
    optimum ← evaluate (minimum_burn sample (linear_fuel_burn sample));
    print (line_failed_median (linear_fuel_burn sample m) optimum);;
    mret false.

Definition assert_mean (sample : RandomList) : io bool :=
  holds ← evaluate (mean_check sample);
  if holds : bool then mret true
  else
    m ← evaluate (mean sample);
    optimum ← evaluate (minimum_burn sample (arithmetic_progression_burn sample));
    print (line_failed_mean (arithmetic_progression_burn sample (inject_Z m)) optimum);;
    mret false.

(** The body of [for i in range(10)]. *)
Definition test (i : Z) : io unit :=
  size ← random (randint 1 100);
  hi ← random (randint 10 1000);
  sample ← random (__init__ size 0 hi);
  print (line_test (i + 1) size (_items sample));;
  median_passed ← assert_median sample;
  mean_passed ← assert_mean sample;
  if median_passed && mean_passed then print line_passed else mret tt.

Fixpoint for_each (body : Z -> io unit) (js : list Z) : io unit :=
  match js with
  | [] => mret tt
  | j :: js' => body j;; for_each body js'
  end.

(** The script; [maxsize] is [sys.maxsize]. *)
Definition main (maxsize : Z) (stream : Z -> rng) : io unit :=
  seed ← random (randrange maxsize);
  print (line_seed seed);;
  seed_generator stream seed;;
  for_each test (range 0 10).

(** ** Further notions used in the statements *)

(** The number of times [v] occurs in [items]. *)
Definition occurrences (v : Z) (items : list Z) : Z :=
  Z.of_nat (count_occ Z.eq_dec items v).

(** The numbers of items at or below, and above, the target. *)
Definition count_at_most (t : Z) (items : list Z) : Z :=
  Z.of_nat (length (filter (fun v => v <= t) items)).

Definition count_above (t : Z) (items : list Z) : Z :=
  Z.of_nat (length (filter (fun v => t < v) items)).

(** The upper of the middle elements of the sorted sample. *)
Definition upper_middle (items : list Z) : Z :=
  nth (length items / 2) (merge_sort Z.le items) 0.

(** What the last line of a test of the driver on [sample] may be:
    [PASSED] when the lower middle element is scanned, and otherwise the
    failure of the median with the cost at the median and the larger value
    that the scan found. *)
Definition verdict (sample : RandomList) (l : line) : Prop :=
  match l with
  | line_passed => lower_middle (_items sample) < upper_bound sample
  | line_failed_median yields optimum =>
      upper_bound sample <= lower_middle (_items sample)
      /\ (exists m, median sample = Ok m /\ yields = linear_fuel_burn sample m)
      /\ minimum_burn sample (linear_fuel_burn sample) = Ok optimum
      /\ (yields < optimum)%Q
  | _ => False
  end.

(** What a test of the driver with loop index [i] prints: the line of the
    test, numbered [i + 1], with a sample of 1 to 100 items drawn from
    [0, hi] for some [hi] of [10, 1000], and the verdict on that sample. *)
Definition test_report (i : Z) (r : list line) : Prop :=
  exists (size : Z) (sample : RandomList) (l : line),
    r = [line_test (i + 1) size (_items sample); l]
    /\ 1 <= size <= 100
    /\ Z.of_nat (length (_items sample)) = size
    /\ lower_bound sample = 0
    /\ 10 <= upper_bound sample <= 1000
    /\ constructed sample
    /\ verdict sample l.

(** ** Samples for the examples *)

Definition zeros : rng := fun _ => 0.
Definition words (ws : list Z) : rng := fun n => nth n ws 0.

Definition sample_of (r : result (RandomList * rng)) : RandomList :=
  match r with
  | Ok (s, _) => s
  | Raise _ => mkRandomList 0 0 [] ∅
  end.

Definition one_two_three : RandomList := sample_of (__init__ 3 0 10 (words [1; 2; 3])).

Definition one_to_four : RandomList := sample_of (__init__ 4 0 10 (words [4; 1; 3; 2])).

(** One element, at the upper bound of [0, 10]. *)
Definition single_ten : RandomList := sample_of (__init__ 1 0 10 (words [10])).

(** One element, drawn with both bounds equal to 5. *)
Definition single_five : RandomList := sample_of (__init__ 1 5 5 zeros).

(** The classic sample: the cheapest alignment costs 145 under the
    program's cost and both checks pass. *)
Definition classic : RandomList :=
  sample_of (__init__ 10 0 16 (words [16; 1; 2; 0; 4; 2; 7; 1; 2; 14])).

(** ** The model at work *)

(** Raw words are reduced into the range: 13 is drawn as 2 from [0, 10]. *)
Example ex_items :
  __init__ 3 0 10 (words [1; 13; 3])
  = Ok ({| upper_bound := 10; lower_bound := 0; _items := [1; 2; 3];
           _compressed_items := {[ 1 := 1; 2 := 1; 3 := 1 ]} |}, words []).
Proof. vm_compute. reflexivity. Qed.

Example ex_dict :
  _compressed_items (sample_of (__init__ 5 0 10 (words [4; 1; 2; 2; 4])))
  = {[ 4 := 2; 1 := 1; 2 := 2 ]}.
Proof. vm_compute. reflexivity. Qed.

(** [S = [1, 2, 3]]: the median is 2, where the linear cost is 2, and so is
    the brute-force minimum. *)
Example ex_one_two_three :
  median one_two_three = Ok (inject_Z 2)
  /\ Qeq (linear_fuel_burn one_two_three (inject_Z 2)) (inject_Z 2)
  /\ minimum_burn one_two_three (linear_fuel_burn one_two_three) = Ok (inject_Z 2).
Proof. vm_compute. repeat split. Qed.

(** [S = [1, 2, 3, 4]]: the median is 5/2 and the cost is 4 there, at 2 and
    at 3. *)
Example ex_one_to_four :
  _items one_to_four = [4; 1; 3; 2]
  /\ median one_to_four = Ok (5 # 2)%Q
  /\ Qeq (linear_fuel_burn one_to_four (5 # 2)%Q) (inject_Z 4)
  /\ Qeq (linear_fuel_burn one_to_four (inject_Z 2)) (inject_Z 4)
  /\ Qeq (linear_fuel_burn one_to_four (inject_Z 3)) (inject_Z 4)
  /\ median_check one_to_four = Ok true.
Proof. vm_compute. repeat split. Qed.

Example ex_classic :
  mean classic = Ok 4
  /\ minimum_burn classic (arithmetic_progression_burn classic) = Ok (18560 # 128)%Q
  /\ Qeq (18560 # 128)%Q (inject_Z 145)
  /\ mean_check classic = Ok true /\ median_check classic = Ok true.
Proof. vm_compute. repeat split. Qed.

(** [round] takes ties to the even neighbour. *)
Example ex_round :
  py_round (7 # 2) = 4 /\ py_round (9 # 2) = 4 /\ py_round (- (1 # 2)) = 0
  /\ py_round (- (3 # 2)) = -2 /\ py_round (26 # 10) = 3.
Proof. vm_compute. repeat split. Qed.

(** * Sums of exact numbers *)

Section Sums.

Lemma fold_left_Qplus (xs : list Q) (a : Q) :
  (fold_left Qplus xs a == a + py_sum xs)%Q.
Proof.
  unfold py_sum. revert a.
  induction xs as [|x xs IH]; intros a; simpl.
  - ring.
  - rewrite (IH (a + x)%Q), (IH (0 + x)%Q). ring.
Qed.

Lemma py_sum_nil : py_sum [] = 0%Q.
Proof. reflexivity. Qed.

Lemma py_sum_cons (x : Q) (xs : list Q) : (py_sum (x :: xs) == x + py_sum xs)%Q.
Proof.
  unfold py_sum at 1. simpl. rewrite fold_left_Qplus. ring.
Qed.

Lemma py_sum_app (xs ys : list Q) : (py_sum (xs ++ ys) == py_sum xs + py_sum ys)%Q.
Proof.
  induction xs as [|x xs IH]; simpl.
  - rewrite py_sum_nil. ring.
  - rewrite !py_sum_cons, IH. ring.
Qed.

Lemma py_sum_perm (xs ys : list Q) : xs ≡ₚ ys -> (py_sum xs == py_sum ys)%Q.
Proof.
  induction 1 as [|x xs ys _ IH|x y xs|xs ys zs _ IH1 _ IH2].
  - reflexivity.
  - rewrite !py_sum_cons, IH. reflexivity.
  - rewrite !py_sum_cons. ring.
  - rewrite IH1. exact IH2.
Qed.

Lemma py_sum_nonneg (xs : list Q) :
  Forall (fun x => (0 <= x)%Q) xs -> (0 <= py_sum xs)%Q.
Proof.
  induction 1 as [|x xs Hx _ IH].
  - rewrite py_sum_nil. apply Qle_refl.
  - rewrite py_sum_cons.
    replace 0%Q with (0 + 0)%Q by reflexivity. now apply Qplus_le_compat.
Qed.

Lemma py_sum_ext {A : Type} (f g : A -> Q) (xs : list A) :
  (forall x, x ∈ xs -> (f x == g x)%Q) ->
  (py_sum (map f xs) == py_sum (map g xs))%Q.
Proof.
  induction xs as [|x xs IH]; intros Hfg; simpl.
  - reflexivity.
  - rewrite !py_sum_cons, IH, (Hfg x).
    + reflexivity.
    + left.
    + intros y Hy. apply Hfg. now right.
Qed.

Lemma py_sum_inject_Z (xs : list Z) :
  (py_sum (map inject_Z xs) == inject_Z (sum_Z xs))%Q.
Proof.
  induction xs as [|x xs IH]; simpl.
  - reflexivity.
  - rewrite py_sum_cons, IH, inject_Z_plus. reflexivity.
Qed.

End Sums.

(** * The dictionary of multiplicities *)

Section Tally.

Lemma tally_all_snoc (items : list Z) (x : Z) :
  tally_all (items ++ [x]) = tally x (tally_all items).
Proof. unfold tally_all. now rewrite fold_left_app. Qed.

(** One more occurrence of [x] adds the weight of [x] once to any sum of
    per-value weights times multiplicity. *)
Lemma tally_sum (f : Z -> Q) (x : Z) (d : gmap Z Z) :
  (py_sum (map (fun e : Z * Z => f e.1 * inject_Z e.2) (map_to_list (tally x d)))
   == py_sum (map (fun e : Z * Z => f e.1 * inject_Z e.2) (map_to_list d)) + f x)%Q.
Proof.
  unfold tally. destruct (d !! x) as [c|] eqn:Hx.
  - rewrite <- (insert_delete_eq d x (c + 1)).
    rewrite (py_sum_perm _ _ (Permutation_map _
               (map_to_list_insert (delete x d) x (c + 1) (lookup_delete_eq d x)))).
    rewrite <- (py_sum_perm _ _ (Permutation_map _ (map_to_list_delete d x c Hx))).
    simpl. rewrite !py_sum_cons. simpl. rewrite inject_Z_plus. ring.
  - rewrite (py_sum_perm _ _ (Permutation_map _ (map_to_list_insert d x 1 Hx))).
    simpl. rewrite py_sum_cons. simpl. ring.
Qed.

Lemma tally_all_sum (f : Z -> Q) (items : list Z) :
  (py_sum (map (fun e : Z * Z => f e.1 * inject_Z e.2) (map_to_list (tally_all items)))
   == py_sum (map f items))%Q.
Proof.
  induction items as [|x items IH] using rev_ind.
  - unfold tally_all. simpl. rewrite map_to_list_empty. reflexivity.
  - rewrite tally_all_snoc, tally_sum, IH, map_app, py_sum_app. simpl.
    rewrite py_sum_cons, py_sum_nil. ring.
Qed.

(** Every key is a stored item and every multiplicity is positive. *)
Lemma tally_lookup (x y c : Z) (d : gmap Z Z) :
  tally x d !! y = Some c ->
  (y = x /\ (c = 1 \/ exists c', d !! x = Some c' /\ c = c' + 1)) \/ d !! y = Some c.
Proof.
  unfold tally. destruct (d !! x) as [c'|] eqn:Hx.
  - rewrite lookup_insert. case_decide as Hxy.
    + intros [= <-]. subst y. left. eauto.
    + auto.
  - rewrite lookup_insert. case_decide as Hxy.
    + intros [= <-]. subst y. left. eauto.
    + auto.
Qed.

Lemma tally_all_lookup (items : list Z) (y c : Z) :
  tally_all items !! y = Some c -> y ∈ items /\ 0 < c.
Proof.
  revert y c. induction items as [|x items IH] using rev_ind; intros y c.
  - unfold tally_all. simpl. now rewrite lookup_empty.
  - rewrite tally_all_snoc. intros H.
    destruct (tally_lookup _ _ _ _ H) as [[-> [-> | (c' & Hc' & ->)]] | Hy].
    + split; [apply elem_of_app; right; left | lia].
    + pose proof (IH _ _ Hc') as [? ?].
      split; [apply elem_of_app; right; left | lia].
    + pose proof (IH _ _ Hy) as [? ?].
      split; [apply elem_of_app; now left | lia].
Qed.

End Tally.

(** * Construction *)

Section Construction.

Lemma draws_length (n : nat) (lo hi : Z) (g : rng) : length (draws n lo hi g) = n.
Proof. revert g. induction n as [|n IH]; intros g; simpl; [done | now rewrite IH]. Qed.

Lemma draws_in_range (n : nat) (lo hi : Z) (g : rng) :
  lo <= hi -> Forall (fun v => lo <= v <= hi) (draws n lo hi g).
Proof.
  intros Hle. revert g. induction n as [|n IH]; intros g; simpl; constructor.
  - pose proof (Z.mod_pos_bound (g O) (hi - lo + 1)). lia.
  - apply IH.
Qed.

(** Any list of values of the range is what some generator draws. *)
Lemma draws_words (lo hi : Z) (vs : list Z) :
  Forall (fun v => lo <= v <= hi) vs ->
  draws (length vs) lo hi (words (map (fun v => v - lo) vs)) = vs.
Proof.
  induction 1 as [|v vs Hv _ IH]; simpl.
  - reflexivity.
  - f_equal.
    + unfold words. simpl. rewrite Z.mod_small; lia.
    + exact IH.
Qed.

Lemma draw_items_Ok (n : nat) (lo hi : Z) (self : RandomList) (g : rng) :
  lo <= hi \/ n = O ->
  exists g',
    draw_items n lo hi self g =
    Ok ({| upper_bound := upper_bound self;
           lower_bound := lower_bound self;
           _items := _items self ++ draws n lo hi g;
           _compressed_items :=
             fold_left (fun d item => tally item d) (draws n lo hi g)
                       (_compressed_items self) |}, g').
Proof.
  revert self g. induction n as [|n IH]; intros self g Hn; simpl.
  - exists g. rewrite app_nil_r. now destruct self.
  - assert (Hle : lo <= hi) by (destruct Hn; [done | discriminate]).
    unfold randint. rewrite decide_False by lia. simpl.
    destruct (IH (record_item (lo + g O mod (hi - lo + 1)) self) (fun k => g (S k)))
      as [g' ->]; [now left |].
    exists g'. simpl. now rewrite <- app_assoc.
Qed.

Lemma draw_items_Raise (n : nat) (lo hi : Z) (self : RandomList) (g : rng) :
  hi < lo -> n <> O -> draw_items n lo hi self g = Raise ValueError.
Proof.
  intros Hlt Hn. destruct n as [|n]; [done |].
  simpl. unfold randint. now rewrite decide_True.
Qed.

Lemma init_Ok (items_c lo hi : Z) (g : rng) :
  lo <= hi \/ items_c <= 0 ->
  exists g', __init__ items_c lo hi g = Ok (built items_c lo hi g, g').
Proof.
  intros H. unfold __init__.
  destruct (draw_items_Ok (Z.to_nat items_c) lo hi
              {| upper_bound := hi; lower_bound := lo;
                 _items := []; _compressed_items := ∅ |} g) as [g' ->].
  - destruct H; [now left | right; lia].
  - now exists g'.
Qed.

Lemma init_Raise (items_c lo hi : Z) (g : rng) :
  hi < lo -> 0 < items_c -> __init__ items_c lo hi g = Raise ValueError.
Proof.
  intros Hlt Hc. unfold __init__. apply draw_items_Raise; lia.
Qed.

Lemma init_built (items_c lo hi : Z) (g g' : rng) (s : RandomList) :
  __init__ items_c lo hi g = Ok (s, g') ->
  s = built items_c lo hi g /\ (lo <= hi \/ items_c <= 0).
Proof.
  intros H.
  destruct (decide (lo <= hi \/ items_c <= 0)) as [Hok | Hbad].
  - destruct (init_Ok items_c lo hi g Hok) as [g'' Heq].
    rewrite Heq in H. now injection H as <- _.
  - rewrite init_Raise in H by lia. discriminate.
Qed.

Lemma init_constructed (items_c lo hi : Z) (g g' : rng) (s : RandomList) :
  __init__ items_c lo hi g = Ok (s, g') ->
  constructed s /\ lower_bound s = lo /\ upper_bound s = hi
  /\ length (_items s) = Z.to_nat items_c.
Proof.
  intros H. apply init_built in H as [-> Hok]. unfold built. simpl.
  split; [split; simpl |]; [| done | by rewrite draws_length].
  destruct Hok as [Hle | Hc].
  - now apply draws_in_range.
  - replace (Z.to_nat items_c) with O by lia. constructor.
Qed.

(** Conversely every list of values of the range is the sample of some
    run of the constructor. *)
Lemma constructed_init (s : RandomList) :
  constructed s ->
  exists g g',
    __init__ (Z.of_nat (length (_items s))) (lower_bound s) (upper_bound s) g
    = Ok (s, g').
Proof.
  intros [Hr Hd].
  exists (words (map (fun v => v - lower_bound s) (_items s))).
  destruct (decide (lower_bound s <= upper_bound s)) as [Hle | Hgt].
  - destruct (init_Ok (Z.of_nat (length (_items s))) (lower_bound s) (upper_bound s)
                (words (map (fun v => v - lower_bound s) (_items s)))) as [g' ->];
      [now left |].
    exists g'. do 2 f_equal. unfold built.
    rewrite Nat2Z.id, draws_words by done.
    destruct s; simpl in *. now subst.
  - destruct (_items s) as [|v vs] eqn:Hi.
    + exists (words []). unfold __init__. simpl. do 2 f_equal.
      destruct s; simpl in *. now subst.
    + inversion Hr; subst. lia.
Qed.

End Construction.

(** * Statements about the constructor *)

(** C4, as stated, is false: a negative count does not make the constructor
    fail ([range] of a negative number is empty), and a positive count with
    [lo > hi] does ([randint] rejects the empty range). *)
Lemma construct_fails_iff_negative_count_counterexample :
  ~ (fails (__init__ (-1) 0 10 zeros) <-> -1 < 0)
  /\ ~ (fails (__init__ 1 5 3 zeros) <-> 1 < 0).
Proof.
  split.
  - intros [_ H]. destruct H as [e He]; [lia |]. discriminate He.
  - intros [H _]. assert (1 < 0); [apply H; now exists ValueError | lia].
Qed.

(** C4, amended: the constructor fails exactly when a draw is attempted on
    an empty range, that is when [0 < count] and [hi < lo], and the failure
    is [ValueError].  In every other case it returns the sample whose bounds
    are [lo] and [hi], whose items are the successive results of [randint],
    in the order they were drawn, [max count 0] of them, each within
    [lo, hi], and whose dictionary is the tally of these items. *)
Theorem construct_fails_iff_draw_on_empty_range (items_c lo hi : Z) (g : rng) :
  (fails (__init__ items_c lo hi g) <-> 0 < items_c /\ hi < lo)
  /\ (0 < items_c /\ hi < lo -> __init__ items_c lo hi g = Raise ValueError)
  /\ (~ (0 < items_c /\ hi < lo) ->
      exists s g',
        __init__ items_c lo hi g = Ok (s, g')
        /\ lower_bound s = lo /\ upper_bound s = hi
        /\ _items s = draws (Z.to_nat items_c) lo hi g
        /\ Z.of_nat (length (_items s)) = Z.max items_c 0
        /\ Forall (fun v => lo <= v <= hi) (_items s)
        /\ _compressed_items s = tally_all (_items s)).
Proof.
  split; [split | split].
  - intros [e He].
    destruct (decide (0 < items_c /\ hi < lo)) as [|Hn]; [done |].
    destruct (init_Ok items_c lo hi g) as [g' Heq]; [lia | congruence].
  - intros [Hc Hlt]. exists ValueError. now apply init_Raise.
  - intros [Hc Hlt]. now apply init_Raise.
  - intros Hn.
    destruct (init_Ok items_c lo hi g) as [g' Heq]; [lia |].
    exists (built items_c lo hi g), g'.
    destruct (init_constructed _ _ _ _ _ _ Heq) as ([Hr Hd] & Hlo & Hhi & Hlen).
    rewrite Hlo, Hhi in Hr.
    repeat split; try done. rewrite Hlen. lia.
Qed.

Lemma construct_fails_iff_draw_on_empty_range_witness :
  fails (__init__ 1 5 3 zeros)
  /\ exists s g', __init__ 3 0 10 (words [1; 2; 3]) = Ok (s, g') /\ _items s = [1; 2; 3].
Proof.
  split.
  - apply (proj1 (construct_fails_iff_draw_on_empty_range 1 5 3 zeros)). lia.
  - destruct (proj2 (proj2 (construct_fails_iff_draw_on_empty_range 3 0 10 (words [1; 2; 3]))))
      as (s & g' & Heq & _ & _ & Hitems & _); [lia |].
    exists s, g'. split; [exact Heq | exact Hitems].
Defined.

(** ** The invariant of the data model *)

Lemma tally_all_counts_sum (items : list Z) :
  counts_sum (tally_all items) = Z.of_nat (length items).
Proof.
  apply inject_Z_injective. unfold counts_sum.
  rewrite <- py_sum_inject_Z, map_map.
  rewrite (py_sum_ext _ (fun e : Z * Z => (fun _ => 1) e.1 * inject_Z e.2)%Q)
    by (intros; ring).
  rewrite (tally_all_sum (fun _ => 1%Q)).
  induction items as [|x items IH]; simpl length.
  - reflexivity.
  - simpl map. rewrite py_sum_cons, IH, Nat2Z.inj_succ.
    unfold Z.succ. rewrite inject_Z_plus. ring.
Qed.

Lemma constructed_invariant (s : RandomList) : constructed s -> invariant s.
Proof.
  intros [Hr Hd]. split.
  - rewrite Hd. apply tally_all_counts_sum.
  - intros k c Hk. rewrite Hd in Hk.
    apply tally_all_lookup in Hk as [Hin _].
    rewrite Forall_forall in Hr. now apply Hr.
Qed.

Lemma invoke_state (c : call) (self : RandomList) : (invoke c self).2 = self.
Proof. now destruct c. Qed.

(** C6: after a successful construction with [0 <= count] and [lo <= hi]
    the counts of the dictionary add up to the number of stored items and
    every key lies within [lower_bound, upper_bound]; the same holds of the
    object that any method call leaves behind. *)
Theorem construct_establishes_invariant
    (items_c lo hi : Z) (g g' : rng) (s : RandomList) :
  0 <= items_c -> lo <= hi ->
  __init__ items_c lo hi g = Ok (s, g') ->
  invariant s
  /\ counts_sum (_compressed_items s) = items_c
  /\ (forall k, is_Some (_compressed_items s !! k) -> lo <= k <= hi)
  /\ forall c : call, invariant (invoke c s).2.
Proof.
  intros Hc Hle H.
  destruct (init_constructed _ _ _ _ _ _ H) as (Hs & Hlo & Hhi & Hlen).
  pose proof (constructed_invariant s Hs) as Hinv.
  split; [exact Hinv |]. split; [| split].
  - rewrite (invariant_counts s Hinv), Hlen. lia.
  - intros k [c Hk]. rewrite <- Hlo, <- Hhi. exact (invariant_keys s Hinv k c Hk).
  - intros c. now rewrite invoke_state.
Qed.

Lemma construct_establishes_invariant_witness : invariant one_two_three.
Proof.
  refine (proj1 (construct_establishes_invariant 3 0 10 (words [1; 2; 3])
                   (words []) _ _ _ _)).
  - lia.
  - lia.
  - reflexivity.
Defined.

(** * The costs *)

Lemma Qabs_inject_Z (z : Z) : Qabs (inject_Z z) = inject_Z (Z.abs z).
Proof. reflexivity. Qed.

Lemma linear_fuel_burn_raw (s : RandomList) (target : Q) :
  constructed s ->
  (linear_fuel_burn s target == raw_linear_cost (_items s) target)%Q.
Proof.
  intros [_ Hd]. unfold linear_fuel_burn, raw_linear_cost. rewrite Hd.
  apply (tally_all_sum (fun v => Qabs (inject_Z v - target))).
Qed.

Lemma raw_linear_cost_inject_Z (items : list Z) (target : Z) :
  (raw_linear_cost items (inject_Z target) == inject_Z (raw_linear_cost_Z items target))%Q.
Proof.
  unfold raw_linear_cost, raw_linear_cost_Z.
  rewrite <- py_sum_inject_Z, map_map.
  apply py_sum_ext. intros v _.
  rewrite <- Qabs_inject_Z. apply Qabs_wd.
  unfold Z.sub. rewrite inject_Z_plus, inject_Z_opp. reflexivity.
Qed.

(** C7: the linear cost computed from the dictionary equals the sum of
    [|v - t|] over the stored elements, for every target; for an integer
    target both are the integer sum of the distances. *)
Theorem linear_cost_compressed_eq_raw
    (items_c lo hi : Z) (g g' : rng) (s : RandomList) :
  __init__ items_c lo hi g = Ok (s, g') ->
  (forall t : Q, linear_fuel_burn s t == raw_linear_cost (_items s) t)%Q
  /\ (forall t : Z,
        linear_fuel_burn s (inject_Z t) == inject_Z (raw_linear_cost_Z (_items s) t))%Q.
Proof.
  intros H. destruct (init_constructed _ _ _ _ _ _ H) as (Hs & _).
  split; intros t.
  - now apply linear_fuel_burn_raw.
  - rewrite linear_fuel_burn_raw by done. apply raw_linear_cost_inject_Z.
Qed.

Lemma linear_cost_compressed_eq_raw_witness :
  Qeq (linear_fuel_burn one_two_three (inject_Z 2))
      (inject_Z (raw_linear_cost_Z [1; 2; 3] 2)).
Proof.
  exact (proj2 (linear_cost_compressed_eq_raw 3 0 10 (words [1; 2; 3])
                  (words []) one_two_three eq_refl) 2).
Defined.

Lemma py_sum_map_nonneg {A : Type} (f : A -> Q) (xs : list A) :
  (forall x, x ∈ xs -> (0 <= f x)%Q) -> (0 <= py_sum (map f xs))%Q.
Proof.
  intros Hf. apply py_sum_nonneg. apply Forall_forall. intros y Hy.
  apply list_elem_of_In, in_map_iff in Hy as (x & <- & Hx).
  apply Hf. now apply list_elem_of_In.
Qed.

Lemma entry_count_pos (s : RandomList) (e : Z * Z) :
  constructed s -> e ∈ map_to_list (_compressed_items s) -> 0 < e.2.
Proof.
  intros [_ Hd] He. destruct e as [k c].
  apply elem_of_map_to_list in He. rewrite Hd in He.
  now apply tally_all_lookup in He as [_ Hc].
Qed.

(** C8: both costs of a constructed sample are non-negative at every
    target, inside the bounds or not. *)
Theorem costs_nonneg (items_c lo hi : Z) (g g' : rng) (s : RandomList) (t : Q) :
  __init__ items_c lo hi g = Ok (s, g') ->
  (0 <= linear_fuel_burn s t)%Q /\ (0 <= arithmetic_progression_burn s t)%Q.
Proof.
  intros H. destruct (init_constructed _ _ _ _ _ _ H) as (Hs & _).
  split; apply py_sum_map_nonneg; intros e He;
    apply Qmult_le_0_compat; try apply Qabs_nonneg;
    change 0%Q with (inject_Z 0); rewrite <- Zle_Qle;
    pose proof (entry_count_pos s e Hs He); lia.
Qed.

Lemma costs_nonneg_witness :
  (0 <= linear_fuel_burn classic (inject_Z (-7)))%Q
  /\ (0 <= arithmetic_progression_burn classic (inject_Z (-7)))%Q.
Proof.
  exact (costs_nonneg 10 0 16 (words [16; 1; 2; 0; 4; 2; 7; 1; 2; 14])
           (words []) classic (inject_Z (-7)) eq_refl).
Defined.


(** ** The progression cost of one element *)

Lemma consecutive_product_even (d : Z) : d * (d - 1) = 2 * (d * (d - 1) / 2).
Proof.
  assert (Hk : exists k, d * (d - 1) = 2 * k).
  { destruct (Z.Even_or_Odd d) as [[k ->] | [k ->]].
    - exists (k * (2 * k - 1)). ring.
    - exists ((2 * k + 1) * k). ring. }
  destruct Hk as [k ->]. rewrite (Z.mul_comm 2 k), Z.div_mul by lia. ring.
Qed.

Lemma half_consecutive_product_nonneg (d : Z) : 0 <= d * (d - 1) / 2.
Proof. apply Z.div_pos; [nia | lia]. Qed.

(** For an integer target the value under the absolute value is an integer
    that is not negative: the absolute value changes nothing. *)
Lemma progression_term_inject_Z (t v c : Z) :
  Qeq (progression_term (inject_Z t) (v, c)) (inject_Z ((v - t) * (v - t - 1) / 2 * c)).
Proof.
  unfold progression_term. cbn [fst snd].
  assert (Hq : ((inject_Z v - inject_Z t) * (inject_Z v - inject_Z t - 1) / 2
                == inject_Z ((v - t) * (v - t - 1) / 2))%Q).
  { assert (H2 : ((inject_Z v - inject_Z t) * (inject_Z v - inject_Z t - 1)
                  == 2 * inject_Z ((v - t) * (v - t - 1) / 2))%Q).
    { change 2%Q with (inject_Z 2). rewrite <- inject_Z_mult.
      rewrite <- consecutive_product_even.
      rewrite inject_Z_mult. unfold Z.sub.
      rewrite !inject_Z_plus, !inject_Z_opp. change (inject_Z 1) with 1%Q. ring. }
    rewrite H2. field. }
  rewrite Hq, Qabs_inject_Z, Z.abs_eq by apply half_consecutive_product_nonneg.
  now rewrite inject_Z_mult.
Qed.



Lemma progression_burn_raw (s : RandomList) (t : Z) :
  constructed s ->
  (arithmetic_progression_burn s (inject_Z t)
   == inject_Z (raw_progression_cost_Z (_items s) t))%Q.
Proof.
  intros [_ Hd]. unfold arithmetic_progression_burn, raw_progression_cost_Z.
  rewrite <- py_sum_inject_Z, map_map.
  rewrite <- (tally_all_sum (fun v => inject_Z ((v - t) * (v - t - 1) / 2))), <- Hd.
  apply py_sum_ext. intros [v c] _.
  rewrite progression_term_inject_Z, inject_Z_mult. reflexivity.
Qed.



(** * The brute-force minimum *)

Section Minimum.

Context {A : Type} (key : A -> Q).

Lemma min_from_elem (best : A) (xs : list A) : min_from key best xs ∈ best :: xs.
Proof.
  revert best. induction xs as [|x xs IH]; intros best; simpl.
  - left.
  - specialize (IH (if Qlt_le_dec (key x) (key best) then x else best)).
    destruct (Qlt_le_dec (key x) (key best));
      apply elem_of_cons in IH as [-> | IH];
      auto using list_elem_of_here, list_elem_of_further.
Qed.

Lemma min_from_le_best (best : A) (xs : list A) :
  (key (min_from key best xs) <= key best)%Q.
Proof.
  revert best. induction xs as [|x xs IH]; intros best; simpl.
  - apply Qle_refl.
  - specialize (IH (if Qlt_le_dec (key x) (key best) then x else best)).
    destruct (Qlt_le_dec (key x) (key best)) as [Hlt | Hle].
    + eapply Qle_trans; [exact IH | now apply Qlt_le_weak].
    + exact IH.
Qed.

Lemma min_from_le (best : A) (xs : list A) (y : A) :
  y ∈ best :: xs -> (key (min_from key best xs) <= key y)%Q.
Proof.
  revert best. induction xs as [|x xs IH]; intros best Hy; simpl.
  - apply list_elem_of_singleton in Hy as ->. apply Qle_refl.
  - apply elem_of_cons in Hy as [-> | Hy].
    + eapply Qle_trans; [apply min_from_le_best |].
      destruct (Qlt_le_dec (key x) (key best)); [now apply Qlt_le_weak | apply Qle_refl].
    + apply elem_of_cons in Hy as [-> | Hy].
      * eapply Qle_trans; [apply min_from_le_best |].
        destruct (Qlt_le_dec (key x) (key best)); [apply Qle_refl | done].
      * apply IH. now right.
Qed.

Lemma py_min_Ok (xs : list A) :
  xs <> [] ->
  exists r, py_min key xs = Ok r /\ r ∈ xs /\ forall y, y ∈ xs -> (key r <= key y)%Q.
Proof.
  destruct xs as [|x xs]; [done |]. intros _.
  exists (min_from key x xs). split; [done |].
  split; [apply min_from_elem | apply min_from_le].
Qed.

End Minimum.

Lemma range_elem (start stop x : Z) : x ∈ range start stop <-> start <= x < stop.
Proof. unfold range. rewrite elem_of_seqZ. lia. Qed.

Lemma range_empty (start stop : Z) : stop <= start -> range start stop = [].
Proof.
  intros H. unfold range, seqZ. now replace (Z.to_nat (stop - start)) with O by lia.
Qed.

Lemma minimum_burn_least (self : RandomList) (func : Q -> Q) :
  lower_bound self < upper_bound self ->
  exists m, minimum_burn self func = Ok m
            /\ least_value func (lower_bound self) (upper_bound self) m.
Proof.
  intros Hlt. unfold minimum_burn.
  destruct (py_min_Ok (fst : Q * Z -> Q)
              (map (fun j => (func (inject_Z j), j))
                   (range (lower_bound self) (upper_bound self))))
    as ([m x] & -> & Hin & Hmin).
  - intros Hnil. apply (f_equal (@length _)) in Hnil.
    rewrite length_map in Hnil. unfold range in Hnil.
    rewrite length_seqZ in Hnil. simpl in Hnil. lia.
  - exists m. split; [reflexivity |]. split.
    + apply list_elem_of_In, in_map_iff in Hin as (j & [= <- <-] & Hj).
      exists j. split; [| done]. now apply range_elem, list_elem_of_In.
    + intros y Hy.
      apply (Hmin (func (inject_Z y), y)).
      apply list_elem_of_In, in_map_iff. exists y.
      split; [done |]. now apply list_elem_of_In, range_elem.
Qed.

Lemma minimum_burn_empty (self : RandomList) (func : Q -> Q) :
  upper_bound self <= lower_bound self -> minimum_burn self func = Raise ValueError.
Proof.
  intros Hle. unfold minimum_burn. now rewrite range_empty.
Qed.

(** C5: when [lower_bound < upper_bound] the brute-force minimum returns a
    cost value: one that the cost function takes at an integer of
    [lower_bound, upper_bound), and that is below or equal to its value at
    each of them; [upper_bound] itself is not scanned.  When
    [upper_bound <= lower_bound] there is nothing to scan and the call
    fails. *)
Theorem minimum_burn_is_least_value (self : RandomList) (func : Q -> Q) :
  (lower_bound self < upper_bound self ->
   exists m, minimum_burn self func = Ok m
             /\ least_value func (lower_bound self) (upper_bound self) m)
  /\ (upper_bound self <= lower_bound self -> fails (minimum_burn self func))
  /\ (fails (minimum_burn self func) -> upper_bound self <= lower_bound self).
Proof.
  split; [apply minimum_burn_least | split].
  - intros Hle. exists ValueError. now apply minimum_burn_empty.
  - intros [e He].
    destruct (decide (lower_bound self < upper_bound self)) as [Hlt | Hge]; [| lia].
    destruct (minimum_burn_least self func Hlt) as (m & Hm & _). congruence.
Qed.

Lemma minimum_burn_is_least_value_witness :
  (exists m, minimum_burn one_two_three (linear_fuel_burn one_two_three) = Ok m
             /\ least_value (linear_fuel_burn one_two_three) 0 10 m)
  /\ fails (minimum_burn single_five (fun x => x)).
Proof.
  split.
  - apply (proj1 (minimum_burn_is_least_value one_two_three (linear_fuel_burn one_two_three))).
    reflexivity.
  - apply (proj1 (proj2 (minimum_burn_is_least_value single_five (fun x => x)))).
    discriminate.
Defined.

(** * The mean-adjusted statistic *)

Section MeanStatistic.

(** [round] returns an integer nearest to its argument. *)
Lemma py_round_nearest (x : Q) :
  (inject_Z (py_round x) - (1 # 2) <= x /\ x <= inject_Z (py_round x) + (1 # 2))%Q.
Proof.
  unfold py_round.
  pose proof (Qfloor_le x) as Hlo. pose proof (Qlt_floor x) as Hhi.
  rewrite inject_Z_plus in Hhi. change (inject_Z 1) with 1%Q in Hhi.
  destruct (x - inject_Z (Qfloor x) ?= 1 # 2)%Q eqn:Hc.
  - apply Qeq_alt in Hc.
    destruct (Z.even (Qfloor x)).
    + split; lra.
    + rewrite inject_Z_plus. change (inject_Z 1) with 1%Q. split; lra.
  - apply Qlt_alt in Hc. split; lra.
  - apply Qgt_alt in Hc. rewrite inject_Z_plus. change (inject_Z 1) with 1%Q.
    split; lra.
Qed.

Variable items : list Z.
Local Abbreviation n := (Z.of_nat (length items)).
Local Abbreviation total := (sum_Z items).

(** Twice the progression cost, as a polynomial in the target. *)
Lemma raw_progression_cost_double (t : Z) :
  2 * raw_progression_cost_Z items t
  = sum_Z (map (fun v => v * v) items) - (2 * t + 1) * total + n * (t * t + t).
Proof.
  unfold raw_progression_cost_Z.
  induction items as [|v vs IH].
  - simpl. ring.
  - cbn [map sum_Z foldr length]. fold (sum_Z vs) in *.
    fold (sum_Z (map (fun v => v * v) vs)) in *.
    fold (sum_Z (map (fun v => (v - t) * (v - t - 1) / 2) vs)) in *.
    rewrite Nat2Z.inj_succ, Z.mul_add_distr_l, IH,
      <- (consecutive_product_even (v - t)).
    ring.
Qed.

(** An integer target within one step below the mean is a cheapest
    target among all integers. *)
Lemma raw_progression_cost_minimal (t x : Z) :
  n * t <= total <= n * (t + 1) ->
  raw_progression_cost_Z items t <= raw_progression_cost_Z items x.
Proof.
  intros [Hlo Hhi].
  pose proof (raw_progression_cost_double t) as Ht.
  pose proof (raw_progression_cost_double x) as Hx.
  assert (Hn : 0 <= n) by lia.
  assert (Hdiff : 2 * raw_progression_cost_Z items x - 2 * raw_progression_cost_Z items t
                  = (x - t) * (n * (x + t + 1) - 2 * total)) by (rewrite Ht, Hx; ring).
  assert (0 <= (x - t) * (n * (x + t + 1) - 2 * total)); [| lia].
  destruct (Z.lt_trichotomy x t) as [Hlt | [-> | Hgt]].
  - apply Z.mul_nonpos_nonpos; [lia |].
    assert (n * (x + t + 1) <= n * (2 * t)) by (apply Z.mul_le_mono_nonneg_l; lia).
    lia.
  - rewrite Z.sub_diag. lia.
  - apply Z.mul_nonneg_nonneg; [lia |].
    assert (n * (2 * t + 2) <= n * (x + t + 1)) by (apply Z.mul_le_mono_nonneg_l; lia).
    lia.
Qed.

Lemma total_bounds (lo hi : Z) :
  Forall (fun v => lo <= v <= hi) items -> n * lo <= total <= n * hi.
Proof.
  induction 1 as [|v vs Hv _ IH].
  - simpl. lia.
  - cbn [sum_Z foldr length]. fold (sum_Z vs). rewrite Nat2Z.inj_succ. lia.
Qed.

(** A cheapest target is scanned whenever the scan range is not empty. *)
Lemma cheapest_target_in_range (lo hi : Z) :
  items <> [] -> lo < hi -> Forall (fun v => lo <= v <= hi) items ->
  exists w, lo <= w < hi /\ n * w <= total <= n * (w + 1).
Proof.
  intros Hne Hlt Hall.
  assert (Hn : 0 < n) by (destruct items; [done | simpl; lia]).
  pose proof (total_bounds lo hi Hall) as [Hlo Hhi].
  pose proof (Z.div_mod total n ltac:(lia)) as Hdm.
  pose proof (Z.mod_pos_bound total n Hn) as Hmod.
  destruct (decide (total / n < hi)) as [Hin | Hout].
  - exists (total / n). split; [split; [nia | done] | nia].
  - exists (hi - 1). split; [lia | nia].
Qed.

Lemma statistics_mean_Ok :
  items <> [] -> statistics_mean items = Ok (total # Pos.of_nat (length items)).
Proof. unfold statistics_mean. now destruct items. Qed.

(** The mean-adjusted statistic is within one step below the mean. *)
Lemma mean_adjusted_bounds :
  items <> [] ->
  let t := py_round ((total # Pos.of_nat (length items)) - 1 / 2) in
  n * t <= total <= n * (t + 1).
Proof.
  intros Hne t.
  assert (Hn : 0 < n) by (destruct items; [done | simpl; lia]).
  destruct (py_round_nearest ((total # Pos.of_nat (length items)) - 1 / 2)) as [H1 H2].
  fold t in H1, H2.
  assert (Hpos : Z.pos (Pos.of_nat (length items)) = n).
  { destruct (length items) eqn:Hl; [lia |]. rewrite <- Hl. lia. }
  assert (Hmean : ((total # Pos.of_nat (length items)) * inject_Z n == inject_Z total)%Q).
  { unfold Qeq, Qmult, inject_Z. cbn [Qnum Qden].
    rewrite Pos.mul_1_r, Hpos. ring. }
  assert (HnQ : (0 < inject_Z n)%Q) by (change 0%Q with (inject_Z 0); now rewrite <- Zlt_Qlt).
  change (1 / 2)%Q with (1 # 2)%Q in H1, H2.
  set (m := (total # Pos.of_nat (length items))%Q) in H1, H2, Hmean.
  clearbody m.
  assert (Ha : (inject_Z t * inject_Z n <= inject_Z total)%Q).
  { rewrite <- Hmean. apply Qmult_le_compat_r; lra. }
  assert (Hb : (inject_Z total <= (inject_Z t + 1) * inject_Z n)%Q).
  { rewrite <- Hmean. apply Qmult_le_compat_r; lra. }
  change 1%Q with (inject_Z 1) in Hb.
  rewrite <- inject_Z_plus, <- inject_Z_mult, <- Zle_Qle in Hb.
  rewrite <- inject_Z_mult, <- Zle_Qle in Ha.
  lia.
Qed.

End MeanStatistic.

Lemma constructed_nonempty (items_c lo hi : Z) (g g' : rng) (s : RandomList) :
  __init__ items_c lo hi g = Ok (s, g') -> 0 < items_c -> _items s <> [].
Proof.
  intros H Hc Hnil.
  destruct (init_constructed _ _ _ _ _ _ H) as (_ & _ & _ & Hlen).
  rewrite Hnil in Hlen. simpl in Hlen. lia.
Qed.




(** * The median *)

(** A bound on integer elements, read in [Q]; [H] is the bound in [Z] and
    the goal may be weaker by inequalities that [lra] finds. *)
Ltac bound_in_Q H :=
  eapply Forall_impl; [exact H |];
  let v := fresh "v" in let Hv := fresh "Hv" in
  intros v Hv; cbv beta in Hv |- *; rewrite Zle_Qle in Hv; lra.

Section Median.

Lemma raw_linear_cost_app (ls rs : list Z) (y : Q) :
  (raw_linear_cost (ls ++ rs) y == raw_linear_cost ls y + raw_linear_cost rs y)%Q.
Proof. unfold raw_linear_cost. rewrite map_app. apply py_sum_app. Qed.

Lemma raw_linear_cost_cons (v : Z) (vs : list Z) (y : Q) :
  (raw_linear_cost (v :: vs) y == Qabs (inject_Z v - y) + raw_linear_cost vs y)%Q.
Proof. unfold raw_linear_cost. simpl. apply py_sum_cons. Qed.

Lemma raw_linear_cost_perm (xs ys : list Z) (y : Q) :
  xs ≡ₚ ys -> (raw_linear_cost xs y == raw_linear_cost ys y)%Q.
Proof.
  intros Hp. unfold raw_linear_cost. apply py_sum_perm. now apply Permutation_map.
Qed.

(** Moving the target from [x] to [y] changes the cost of the elements
    below [x] by at least [y - x] each, and that of the elements above
    [x] by at least [x - y] each. *)
Lemma raw_linear_cost_below (ls : list Z) (x y : Q) :
  Forall (fun v => (inject_Z v <= x)%Q) ls ->
  (raw_linear_cost ls x + inject_Z (Z.of_nat (length ls)) * (y - x)
   <= raw_linear_cost ls y)%Q.
Proof.
  induction 1 as [|v vs Hv _ IH].
  - unfold raw_linear_cost. cbn [map length]. rewrite py_sum_nil.
    change (inject_Z (Z.of_nat 0)) with 0%Q. lra.
  - rewrite !raw_linear_cost_cons. simpl length.
    rewrite Nat2Z.inj_succ. unfold Z.succ. rewrite inject_Z_plus.
    change (inject_Z 1) with 1%Q.
    assert (Hx : (Qabs (inject_Z v - x) == x - inject_Z v)%Q).
    { rewrite Qabs_neg by lra. ring. }
    pose proof (Qle_Qabs (- (inject_Z v - y))) as Hy. rewrite Qabs_opp in Hy.
    rewrite Hx. lra.
Qed.

Lemma raw_linear_cost_above (rs : list Z) (x y : Q) :
  Forall (fun v => (x <= inject_Z v)%Q) rs ->
  (raw_linear_cost rs x - inject_Z (Z.of_nat (length rs)) * (y - x)
   <= raw_linear_cost rs y)%Q.
Proof.
  induction 1 as [|v vs Hv _ IH].
  - unfold raw_linear_cost. cbn [map length]. rewrite py_sum_nil.
    change (inject_Z (Z.of_nat 0)) with 0%Q. lra.
  - rewrite !raw_linear_cost_cons. simpl length.
    rewrite Nat2Z.inj_succ. unfold Z.succ. rewrite inject_Z_plus.
    change (inject_Z 1) with 1%Q.
    assert (Hx : (Qabs (inject_Z v - x) == inject_Z v - x)%Q).
    { apply Qabs_pos. lra. }
    pose proof (Qle_Qabs (inject_Z v - y)) as Hy.
    rewrite Hx. lra.
Qed.

Lemma raw_linear_cost_split (ls rs : list Z) (x y : Q) :
  Forall (fun v => (inject_Z v <= x)%Q) ls ->
  Forall (fun v => (x <= inject_Z v)%Q) rs ->
  (raw_linear_cost (ls ++ rs) x
   + (inject_Z (Z.of_nat (length ls)) - inject_Z (Z.of_nat (length rs))) * (y - x)
   <= raw_linear_cost (ls ++ rs) y)%Q.
Proof.
  intros Hl Hr. rewrite !raw_linear_cost_app.
  pose proof (raw_linear_cost_below ls x y Hl).
  pose proof (raw_linear_cost_above rs x y Hr).
  lra.
Qed.

Variable data : list Z.
Hypothesis data_sorted : StronglySorted Z.le data.

Lemma sorted_around (k : nat) (p : Z) :
  data !! k = Some p ->
  Forall (fun v => v <= p) (take k data) /\ Forall (fun v => p <= v) (drop k data).
Proof.
  intros Hk. pose proof (take_drop_middle data k p Hk) as Hsplit.
  pose proof data_sorted as Hs. rewrite <- Hsplit in Hs.
  apply StronglySorted_app in Hs as (Hlr & _ & Hr).
  apply StronglySorted_cons in Hr as [Hr _].
  split.
  - apply Forall_forall. intros v Hv. apply Hlr; [exact Hv | left].
  - rewrite <- Hsplit at 1. rewrite drop_app_length'.
    + constructor; [lia | exact Hr].
    + symmetry. apply length_take_le. apply lookup_lt_Some in Hk. lia.
Qed.

(** A middle element of the sorted data is a cheapest target among all
    rationals. *)
Lemma middle_element_minimal (k : nat) (p : Z) (y : Q) :
  data !! k = Some p ->
  (2 * k <= length data <= 2 * k + 2)%nat ->
  (raw_linear_cost data (inject_Z p) <= raw_linear_cost data y)%Q.
Proof.
  intros Hk Hmid. pose proof (lookup_lt_Some _ _ _ Hk) as Hlt.
  destruct (sorted_around k p Hk) as [Hbelow Habove].
  destruct (Qlt_le_dec y (inject_Z p)) as [Hy | Hy].
  - pose proof (raw_linear_cost_split (take k data) (drop k data) (inject_Z p) y) as H.
    rewrite take_drop, length_take_le, length_drop in H by lia.
    assert (Hc : (inject_Z (Z.of_nat k) - inject_Z (Z.of_nat (length data - k)) <= 0)%Q).
    { rewrite <- (Qplus_opp_r (inject_Z (Z.of_nat (length data - k)))).
      apply Qplus_le_compat; [| apply Qle_refl]. rewrite <- Zle_Qle. lia. }
    assert (Hprod : (0 <= (inject_Z (Z.of_nat k) - inject_Z (Z.of_nat (length data - k)))
                          * (y - inject_Z p))%Q) by nra.
    eapply Qle_trans; [| apply H].
    + lra.
    + bound_in_Q Hbelow.
    + bound_in_Q Habove.
  - pose proof (raw_linear_cost_split (take (S k) data) (drop (S k) data)
                  (inject_Z p) y) as H.
    rewrite take_drop, length_take_le, length_drop in H by lia.
    assert (Hc : (0 <= inject_Z (Z.of_nat (S k)) - inject_Z (Z.of_nat (length data - S k)))%Q).
    { rewrite <- (Qplus_opp_r (inject_Z (Z.of_nat (length data - S k)))).
      apply Qplus_le_compat; [| apply Qle_refl]. rewrite <- Zle_Qle. lia. }
    assert (Hprod : (0 <= (inject_Z (Z.of_nat (S k))
                           - inject_Z (Z.of_nat (length data - S k)))
                          * (y - inject_Z p))%Q) by nra.
    eapply Qle_trans; [| apply H].
    + lra.
    + rewrite (take_S_r _ _ _ Hk). apply Forall_app. split.
      * bound_in_Q Hbelow.
      * constructor; [apply Qle_refl | constructor].
    + pose proof (take_drop_middle data k p Hk) as Hsplit.
      assert (Hd : drop k data = p :: drop (S k) data).
      { rewrite <- Hsplit at 1. rewrite drop_app_length'; [done |].
        symmetry. apply length_take_le. lia. }
      rewrite Hd in Habove. inversion Habove as [|? ? _ Hrest]; subst.
      bound_in_Q Hrest.
Qed.

(** So is the average of the two middle elements of an even number of
    data. *)
Lemma middle_average_minimal (i : nat) (b c : Z) (y : Q) :
  length data = (2 * i)%nat -> (0 < i)%nat ->
  data !! (i - 1)%nat = Some b -> data !! i = Some c ->
  (raw_linear_cost data (inject_Z (b + c) / 2) <= raw_linear_cost data y)%Q.
Proof.
  intros Hlen Hi Hb Hc.
  destruct (sorted_around i c Hc) as [Hbelow Habove].
  destruct (sorted_around (i - 1) b Hb) as [_ Hb_above].
  assert (Hbc : b <= c).
  { rewrite Forall_forall in Hb_above. apply Hb_above.
    apply list_elem_of_lookup. exists 1%nat. rewrite lookup_drop.
    now replace (i - 1 + 1)%nat with i by lia. }
  assert (Hmid : (inject_Z b <= inject_Z (b + c) / 2 /\
                  inject_Z (b + c) / 2 <= inject_Z c)%Q).
  { rewrite inject_Z_plus. rewrite Zle_Qle in Hbc.
    unfold Qdiv. change (/ 2)%Q with (1 # 2)%Q. split; lra. }
  destruct Hmid as [Hmb Hmc].
  pose proof (raw_linear_cost_split (take i data) (drop i data)
                (inject_Z (b + c) / 2) y) as H.
  rewrite take_drop, length_take_le, length_drop in H by lia.
  replace (length data - i)%nat with i in H by lia.
  eapply Qle_trans; [| apply H].
  - lra.
  - assert (Htake : take i data = take (i - 1) data ++ [b]).
    { replace i with (S (i - 1)) at 1 by lia. now apply take_S_r. }
    rewrite Htake. apply Forall_app. split.
    + destruct (sorted_around (i - 1) b Hb) as [Hb_below _].
      bound_in_Q Hb_below.
    + constructor; [exact Hmb | constructor].
  - bound_in_Q Habove.
Qed.

End Median.

Section MedianOfSample.

Variable items : list Z.
Hypothesis items_nonempty : items <> [].

Local Abbreviation data := (merge_sort Z.le items).

Local Lemma sorted_data_sorted : StronglySorted Z.le data.
Proof. apply StronglySorted_merge_sort; apply _. Qed.

Local Lemma sorted_data_perm : data ≡ₚ items.
Proof. apply merge_sort_Permutation. Qed.

Local Lemma sorted_data_length : length data = length items.
Proof. apply Permutation_length, sorted_data_perm. Qed.

Local Lemma items_length_pos : (0 < length items)%nat.
Proof. destruct items; [done | simpl; lia]. Qed.

Local Lemma sorted_data_nth (k : nat) : (k < length items)%nat -> data !! k = Some (nth k data 0).
Proof.
  intros Hk. destruct (lookup_lt_is_Some_2 data k) as [p Hp].
  - rewrite sorted_data_length. exact Hk.
  - now rewrite (nth_lookup_Some _ _ _ _ Hp).
Qed.

Lemma lower_middle_lookup :
  data !! ((length items - 1) / 2)%nat = Some (lower_middle items).
Proof.
  pose proof items_length_pos.
  apply sorted_data_nth.
  pose proof (Nat.div_mod_eq (length items - 1) 2).
  pose proof (Nat.mod_upper_bound (length items - 1) 2). lia.
Qed.

Lemma lower_middle_elem : lower_middle items ∈ items.
Proof.
  pose proof (list_elem_of_lookup_2 _ _ _ lower_middle_lookup) as H.
  now rewrite sorted_data_perm in H.
Qed.

Lemma lower_middle_minimal (y : Q) :
  (raw_linear_cost items (inject_Z (lower_middle items)) <= raw_linear_cost items y)%Q.
Proof.
  pose proof items_length_pos.
  rewrite <- !(raw_linear_cost_perm _ _ _ sorted_data_perm).
  apply (middle_element_minimal data sorted_data_sorted ((length items - 1) / 2)).
  - apply lower_middle_lookup.
  - rewrite sorted_data_length.
    pose proof (Nat.div_mod_eq (length items - 1) 2).
    pose proof (Nat.mod_upper_bound (length items - 1) 2). lia.
Qed.

(** Below the lower middle element the cost is strictly larger. *)
Lemma lower_middle_strict (y : Z) :
  y < lower_middle items ->
  (raw_linear_cost items (inject_Z (lower_middle items))
   < raw_linear_cost items (inject_Z y))%Q.
Proof.
  intros Hy. pose proof items_length_pos as Hpos.
  rewrite <- !(raw_linear_cost_perm _ _ _ sorted_data_perm).
  set (k := ((length items - 1) / 2)%nat).
  set (p := lower_middle items) in *.
  assert (Hk : (2 * k < length data)%nat).
  { rewrite sorted_data_length. unfold k.
    pose proof (Nat.div_mod_eq (length items - 1) 2).
    pose proof (Nat.mod_upper_bound (length items - 1) 2). lia. }
  destruct (sorted_around data sorted_data_sorted k p lower_middle_lookup) as [Hbelow Habove].
  pose proof (raw_linear_cost_split (take k data) (drop k data)
                (inject_Z p) (inject_Z y)) as H.
  rewrite take_drop, length_take_le, length_drop in H by lia.
  assert (Hc : (inject_Z (Z.of_nat k) - inject_Z (Z.of_nat (length data - k)) <= -1)%Q).
  { change (-1)%Q with (inject_Z (-1)).
    unfold Qminus. rewrite <- inject_Z_opp, <- inject_Z_plus, <- Zle_Qle. lia. }
  assert (Hd : (inject_Z y - inject_Z p <= -1)%Q).
  { change (-1)%Q with (inject_Z (-1)).
    unfold Qminus. rewrite <- inject_Z_opp, <- inject_Z_plus, <- Zle_Qle. lia. }
  assert (Hprod : (0 < (inject_Z (Z.of_nat k) - inject_Z (Z.of_nat (length data - k)))
                        * (inject_Z y - inject_Z p))%Q) by nra.
  eapply Qlt_le_trans; [| apply H].
  - lra.
  - bound_in_Q Hbelow.
  - bound_in_Q Habove.
Qed.

(** The median of a non-empty sample exists and is a cheapest target
    among all rationals. *)
Lemma statistics_median_minimal :
  exists med,
    statistics_median items = Ok med
    /\ forall y : Q, (raw_linear_cost items med <= raw_linear_cost items y)%Q.
Proof.
  pose proof items_length_pos as Hpos.
  unfold statistics_median. rewrite sorted_data_length.
  rewrite decide_False by lia.
  pose proof (Nat.div_mod_eq (length items) 2) as Hdm.
  pose proof (Nat.mod_upper_bound (length items) 2 ltac:(lia)) as Hmod.
  case_decide as Hodd.
  - eexists. split; [reflexivity |]. intros y.
    rewrite <- !(raw_linear_cost_perm _ _ _ sorted_data_perm).
    apply (middle_element_minimal data sorted_data_sorted (length items / 2)).
    + apply sorted_data_nth. lia.
    + rewrite sorted_data_length. lia.
  - eexists. split; [reflexivity |]. intros y.
    rewrite <- !(raw_linear_cost_perm _ _ _ sorted_data_perm).
    apply (middle_average_minimal data sorted_data_sorted (length items / 2)).
    + rewrite sorted_data_length. lia.
    + lia.
    + apply sorted_data_nth. lia.
    + apply sorted_data_nth. lia.
Qed.

End MedianOfSample.

(** * The check of the median *)

Lemma median_cost_is_lower_middle_cost (s : RandomList) :
  constructed s -> _items s <> [] ->
  exists med,
    median s = Ok med
    /\ (linear_fuel_burn s med
        == linear_fuel_burn s (inject_Z (lower_middle (_items s))))%Q
    /\ forall y : Q, (linear_fuel_burn s med <= linear_fuel_burn s y)%Q.
Proof.
  intros Hs Hne.
  destruct (statistics_median_minimal (_items s) Hne) as (med & Hmed & Hmin).
  exists med. split; [exact Hmed |]. split.
  - rewrite !linear_fuel_burn_raw by done.
    apply Qle_antisym; [apply Hmin | now apply lower_middle_minimal].
  - intros y. rewrite !linear_fuel_burn_raw by done. apply Hmin.
Qed.



(** C1 does not hold of the code.  On the sample [[10]], which
    [RandomList(1, 0, 10)] builds when [randint] returns 10, the median is
    10, where the linear cost is 0, but the scan stops at 9 and finds 1: the
    cost at the median is not the brute-force minimum and the assertion of
    the driver is false. *)
Theorem median_check_fails_on_sample_at_upper_bound :
  __init__ 1 0 10 (words [10]) = Ok (single_ten, words [])
  /\ _items single_ten = [10]
  /\ median single_ten = Ok (inject_Z 10)
  /\ Qeq (linear_fuel_burn single_ten (inject_Z 10)) 0%Q
  /\ Qeq (linear_fuel_burn single_ten (inject_Z 9)) 1%Q
  /\ minimum_burn single_ten (linear_fuel_burn single_ten) = Ok 1%Q
  /\ median_check single_ten = Ok false.
Proof. vm_compute. repeat split. Qed.


(** * More on the constructor *)

Lemma occurrences_nonneg (v : Z) (items : list Z) : 0 <= occurrences v items.
Proof. unfold occurrences. lia. Qed.

Lemma occurrences_snoc (v x : Z) (items : list Z) :
  occurrences v (items ++ [x])
  = occurrences v items + (if decide (x = v) then 1 else 0).
Proof.
  unfold occurrences. rewrite count_occ_app. simpl.
  destruct (Z.eq_dec x v); case_decide; try done; lia.
Qed.

Lemma occurrences_zero (v : Z) (items : list Z) : occurrences v items = 0 <-> v ∉ items.
Proof.
  unfold occurrences. rewrite list_elem_of_In, (count_occ_not_In Z.eq_dec). lia.
Qed.

Lemma tally_all_lookup_occurrences (items : list Z) (v : Z) :
  tally_all items !! v
  = if decide (occurrences v items = 0) then None else Some (occurrences v items).
Proof.
  induction items as [|x items IH] using rev_ind.
  - unfold tally_all. simpl. now rewrite lookup_empty.
  - rewrite tally_all_snoc, occurrences_snoc. unfold tally.
    pose proof (occurrences_nonneg v items) as Hv.
    destruct (decide (x = v)) as [-> | Hne].
    + rewrite IH. case_decide as H0.
      * rewrite lookup_insert_eq, H0. now rewrite decide_False by lia.
      * rewrite lookup_insert_eq. now rewrite decide_False by lia.
    + assert (Hother : forall c, <[x := c]> (tally_all items) !! v = tally_all items !! v)
        by (intros c; now apply lookup_insert_ne).
      rewrite Z.add_0_r.
      destruct (tally_all items !! x); now rewrite Hother.
Qed.

(** X1: the dictionary of a constructed sample maps every stored value to
    the number of times it occurs among the items, and has no entry for any
    other value. *)
Theorem dictionary_counts_occurrences
    (items_c lo hi : Z) (g g' : rng) (s : RandomList) (v : Z) :
  __init__ items_c lo hi g = Ok (s, g') ->
  (v ∈ _items s -> _compressed_items s !! v = Some (occurrences v (_items s))
                   /\ 0 < occurrences v (_items s))
  /\ (v ∉ _items s -> _compressed_items s !! v = None).
Proof.
  intros H. destruct (init_constructed _ _ _ _ _ _ H) as ([_ Hd] & _).
  rewrite Hd, tally_all_lookup_occurrences.
  pose proof (occurrences_nonneg v (_items s)).
  pose proof (occurrences_zero v (_items s)) as Hz.
  split; intros Hv; case_decide; try done.
  - tauto.
  - split; [done | lia].
  - tauto.
Qed.

Lemma dictionary_counts_occurrences_witness :
  _compressed_items classic !! 2 = Some 3 /\ _compressed_items classic !! 3 = None.
Proof.
  split.
  - refine (proj1 (proj1 (dictionary_counts_occurrences 10 0 16
              (words [16; 1; 2; 0; 4; 2; 7; 1; 2; 14]) (words []) classic 2 eq_refl) _)).
    vm_compute. do 2 right. left.
  - refine (proj2 (dictionary_counts_occurrences 10 0 16
              (words [16; 1; 2; 0; 4; 2; 7; 1; 2; 14]) (words []) classic 3 eq_refl) _).
    vm_compute. intros Hin.
    repeat (apply elem_of_cons in Hin as [Hin | Hin]; [discriminate Hin |]).
    now apply elem_of_nil in Hin.
Defined.

(** * More on the progression cost and the mean-adjusted statistic *)






Lemma mean_of_constructed (s : RandomList) :
  constructed s -> _items s <> [] ->
  exists t,
    mean s = Ok t
    /\ Z.of_nat (length (_items s)) * t <= sum_Z (_items s)
       <= Z.of_nat (length (_items s)) * (t + 1)
    /\ lower_bound s - 1 <= t <= upper_bound s.
Proof.
  intros [Hr _] Hne.
  exists (py_round ((sum_Z (_items s) # Pos.of_nat (length (_items s))) - 1 / 2)).
  pose proof (mean_adjusted_bounds (_items s) Hne) as Ht. cbv zeta in Ht.
  split; [unfold mean; now rewrite statistics_mean_Ok | split; [exact Ht |]].
  pose proof (total_bounds (_items s) _ _ Hr) as Hb.
  assert (0 < Z.of_nat (length (_items s))) by (destruct (_items s); [done | simpl; lia]).
  nia.
Qed.



(** The value below the lower bound is reached. *)
Example ex_mean_below_lower_bound : mean single_five = Ok 4 /\ lower_bound single_five = 5.
Proof. vm_compute. auto. Qed.



(** * Samples without items *)

Lemma init_empty (items_c lo hi : Z) (g g' : rng) (s : RandomList) :
  __init__ items_c lo hi g = Ok (s, g') ->
  (items_c <= 0 <-> _items s = []) /\ (_items s = [] -> _compressed_items s = ∅).
Proof.
  intros H.
  destruct (init_constructed _ _ _ _ _ _ H) as ([_ Hd] & _ & _ & Hlen).
  split; [split |].
  - intros Hc. apply length_zero_iff_nil. lia.
  - intros Hnil. rewrite Hnil in Hlen. simpl in Hlen. lia.
  - intros Hnil. now rewrite Hd, Hnil.
Qed.

Lemma statistics_median_empty (data : list Z) :
  statistics_median data = Raise StatisticsError <-> data = [].
Proof.
  unfold statistics_median.
  pose proof (Permutation_length (merge_sort_Permutation Z.le data)) as Hlen.
  split.
  - intros H. apply length_zero_iff_nil.
    repeat case_decide; try discriminate H. lia.
  - intros ->. reflexivity.
Qed.



(** X7: a count that is not positive always gives a sample, without items;
    both costs are 0 at every target and so is each brute-force minimum when
    there is something to scan.  Each check of the driver then raises: the
    [ValueError] of [min] when [upper_bound <= lower_bound], because the
    brute-force minimum is evaluated first, and the [StatisticsError] of the
    statistic otherwise. *)
Theorem sample_without_items (items_c lo hi : Z) (g : rng) :
  items_c <= 0 ->
  exists s g',
    __init__ items_c lo hi g = Ok (s, g')
    /\ _items s = []
    /\ (forall t, linear_fuel_burn s t = 0%Q /\ arithmetic_progression_burn s t = 0%Q)
    /\ (lo < hi ->
        minimum_burn s (linear_fuel_burn s) = Ok 0%Q
        /\ minimum_burn s (arithmetic_progression_burn s) = Ok 0%Q
        /\ median_check s = Raise StatisticsError
        /\ mean_check s = Raise StatisticsError)
    /\ (hi <= lo ->
        median_check s = Raise ValueError /\ mean_check s = Raise ValueError).
Proof.
  intros Hc.
  destruct (init_Ok items_c lo hi g) as [g' H]; [now right |].
  exists (built items_c lo hi g), g'.
  destruct (init_constructed _ _ _ _ _ _ H) as (_ & Hlo & Hhi & _).
  destruct (init_empty _ _ _ _ _ _ H) as [Hiff Hdict].
  pose proof (proj1 Hiff Hc) as Hnil. specialize (Hdict Hnil).
  set (s := built items_c lo hi g) in *.
  assert (Hzero : forall t, linear_fuel_burn s t = 0%Q
                            /\ arithmetic_progression_burn s t = 0%Q).
  { intros t. unfold linear_fuel_burn, arithmetic_progression_burn.
    now rewrite Hdict, map_to_list_empty. }
  split; [exact H |]. split; [exact Hnil |]. split; [exact Hzero |]. split.
  - intros Hlt.
    destruct (minimum_burn_least s (linear_fuel_burn s)) as (m1 & Hm1 & [(x1 & _ & E1) _]);
      [lia |].
    destruct (minimum_burn_least s (arithmetic_progression_burn s))
      as (m2 & Hm2 & [(x2 & _ & E2) _]); [lia |].
    rewrite (proj1 (Hzero _)) in E1. rewrite (proj2 (Hzero _)) in E2. subst m1 m2.
    unfold median_check, mean_check, median, mean.
    rewrite Hm1, Hm2, Hnil. repeat split.
  - intros Hle. unfold median_check, mean_check.
    rewrite !minimum_burn_empty by lia. split; reflexivity.
Qed.

Lemma sample_without_items_witness :
  exists s g',
    __init__ (-3) 0 10 zeros = Ok (s, g')
    /\ _items s = []
    /\ (forall t, linear_fuel_burn s t = 0%Q /\ arithmetic_progression_burn s t = 0%Q)
    /\ (0 < 10 ->
        minimum_burn s (linear_fuel_burn s) = Ok 0%Q
        /\ minimum_burn s (arithmetic_progression_burn s) = Ok 0%Q
        /\ median_check s = Raise StatisticsError
        /\ mean_check s = Raise StatisticsError)
    /\ (10 <= 0 ->
        median_check s = Raise ValueError /\ mean_check s = Raise ValueError).
Proof.
  apply (sample_without_items (-3) 0 10 zeros). lia.
Defined.

(** * More on the linear cost and the median *)


Lemma raw_linear_cost_Z_step (items : list Z) (t : Z) :
  raw_linear_cost_Z items (t + 1) - raw_linear_cost_Z items t
  = count_at_most t items - count_above t items.
Proof.
  unfold raw_linear_cost_Z, count_at_most, count_above.
  induction items as [|v vs IH].
  - reflexivity.
  - cbn [map sum_Z foldr]. fold (sum_Z (map (fun v => Z.abs (v - (t + 1))) vs)).
    fold (sum_Z (map (fun v => Z.abs (v - t)) vs)).
    rewrite !filter_cons.
    destruct (decide (v <= t)); destruct (decide (t < v)); simpl length; lia.
Qed.

(** X8: moving the target one step up from the integer [t] changes the
    linear cost by the number of items at or below [t] minus the number of
    items above [t]. *)
Theorem linear_cost_step (items_c lo hi : Z) (g g' : rng) (s : RandomList) (t : Z) :
  __init__ items_c lo hi g = Ok (s, g') ->
  Qeq (linear_fuel_burn s (inject_Z (t + 1)) - linear_fuel_burn s (inject_Z t))%Q
      (inject_Z (count_at_most t (_items s) - count_above t (_items s))).
Proof.
  intros H. destruct (init_constructed _ _ _ _ _ _ H) as (Hs & _).
  rewrite !linear_fuel_burn_raw, !raw_linear_cost_inject_Z by done.
  rewrite <- raw_linear_cost_Z_step.
  unfold Qminus. rewrite <- inject_Z_opp, <- inject_Z_plus. reflexivity.
Qed.

Lemma linear_cost_step_witness :
  Qeq (linear_fuel_burn classic (inject_Z (2 + 1)) - linear_fuel_burn classic (inject_Z 2))%Q
      (inject_Z (6 - 4)).
Proof.
  exact (linear_cost_step 10 0 16
           (words [16; 1; 2; 0; 4; 2; 7; 1; 2; 14]) (words []) classic 2 eq_refl).
Defined.





Section Plateau.

Variable data : list Z.
Hypothesis data_is_sorted : StronglySorted Z.le data.



End Plateau.

Section MiddlesOfSample.

Variable items : list Z.
Hypothesis items_not_empty : items <> [].

Local Abbreviation sorted_items := (merge_sort Z.le items).






End MiddlesOfSample.



Example ex_middles :
  lower_middle (_items one_to_four) = 2 /\ upper_middle (_items one_to_four) = 3.
Proof. vm_compute. auto. Qed.




(** * The driver *)

Lemma io_bind_run {A B : Type} (m : io A) (k : A -> io B) (w w' : world) (a : A) :
  m w = (Ok a, w') -> (m ≫= k) w = k a w'.
Proof. intros H. unfold mbind, io_bind. now rewrite H. Qed.

Lemma random_randint (lo hi : Z) (w : world) :
  lo <= hi ->
  exists v g',
    lo <= v <= hi
    /\ random (randint lo hi) w = (Ok v, {| gen := g'; out := out w |}).
Proof.
  intros Hle. unfold random, randint. rewrite decide_False by lia.
  eexists _, _. split; [| reflexivity].
  pose proof (Z.mod_pos_bound (gen w O) (hi - lo + 1)). lia.
Qed.

Lemma mean_check_of_constructed (s : RandomList) :
  constructed s -> _items s <> [] -> lower_bound s < upper_bound s ->
  mean_check s = Ok true.
Proof.
  intros Hs Hne Hlt.
  destruct (mean_of_constructed s Hs Hne) as (t & Hmean & Ht & _).
  destruct (minimum_burn_least s (arithmetic_progression_burn s) Hlt)
    as (m & Hm & [(x & Hx & ->) Hmin]).
  destruct (cheapest_target_in_range (_items s) _ _ Hne Hlt (constructed_range s Hs))
    as (w & Hw & Hcheap).
  specialize (Hmin w Hw).
  unfold mean_check. rewrite Hm, Hmean. simpl. f_equal. apply Qeq_bool_iff.
  rewrite !progression_burn_raw in * by done.
  rewrite <- Zle_Qle in Hmin. apply inject_Z_injective.
  pose proof (raw_progression_cost_minimal (_items s) t w Ht).
  pose proof (raw_progression_cost_minimal (_items s) w t Hcheap).
  pose proof (raw_progression_cost_minimal (_items s) w x Hcheap).
  lia.
Qed.

(** The first check on a sample of the driver: whether it holds, and what
    the handler finds when it does not. *)
Lemma median_check_of_constructed (s : RandomList) :
  constructed s -> _items s <> [] -> lower_bound s < upper_bound s ->
  median_check s = Ok (bool_decide (lower_middle (_items s) < upper_bound s))
  /\ exists med optimum,
       median s = Ok med
       /\ minimum_burn s (linear_fuel_burn s) = Ok optimum
       /\ (upper_bound s <= lower_middle (_items s) ->
           (linear_fuel_burn s med < optimum)%Q).
Proof.
  intros Hs Hne Hlt.
  pose proof (constructed_range s Hs) as Hr.
  destruct (median_cost_is_lower_middle_cost s Hs Hne) as (med & Hmed & Hcost & _).
  destruct (minimum_burn_least s (linear_fuel_burn s) Hlt)
    as (m & Hm & [(x & Hx & ->) Hmin]).
  set (p := lower_middle (_items s)) in *.
  assert (Hp : lower_bound s <= p <= upper_bound s).
  { rewrite Forall_forall in Hr. apply Hr. now apply lower_middle_elem. }
  assert (Hstrict : upper_bound s <= p ->
            (linear_fuel_burn s med < linear_fuel_burn s (inject_Z x))%Q).
  { intros Hge. rewrite Hcost, !linear_fuel_burn_raw by done.
    apply (lower_middle_strict (_items s) Hne x). fold p. lia. }
  split.
  - unfold median_check. rewrite Hm, Hmed. simpl. f_equal.
    case_bool_decide as Hscan.
    + apply Qeq_bool_iff. rewrite Hcost.
      apply Qle_antisym; [apply Hmin; lia |].
      rewrite !linear_fuel_burn_raw by done. now apply lower_middle_minimal.
    + destruct (Qeq_bool _ _) eqn:Heq; [| reflexivity].
      apply Qeq_bool_iff in Heq. specialize (Hstrict ltac:(lia)).
      rewrite Heq in Hstrict. now apply Qlt_irrefl in Hstrict.
  - exists med, (linear_fuel_burn s (inject_Z x)). auto.
Qed.

Lemma assert_mean_run (s : RandomList) (w : world) :
  constructed s -> _items s <> [] -> lower_bound s < upper_bound s ->
  assert_mean s w = (Ok true, w).
Proof.
  intros Hs Hne Hlt. unfold assert_mean.
  erewrite io_bind_run; [| unfold evaluate; now rewrite mean_check_of_constructed].
  reflexivity.
Qed.

Lemma assert_median_run (s : RandomList) (w : world) :
  constructed s -> _items s <> [] -> lower_bound s < upper_bound s ->
  (lower_middle (_items s) < upper_bound s /\ assert_median s w = (Ok true, w))
  \/ (exists l,
        verdict s l /\ l <> line_passed
        /\ assert_median s w = (Ok false, {| gen := gen w; out := out w ++ [l] |})).
Proof.
  intros Hs Hne Hlt.
  destruct (median_check_of_constructed s Hs Hne Hlt)
    as (Hcheck & med & optimum & Hmed & Hopt & Hstrict).
  unfold assert_median.
  erewrite io_bind_run; [| unfold evaluate; now rewrite Hcheck].
  case_bool_decide as Hscan.
  - left. split; [exact Hscan | reflexivity].
  - right. exists (line_failed_median (linear_fuel_burn s med) optimum).
    split; [| split; [discriminate |]].
    + simpl. split; [lia |]. split; [eauto |]. split; [exact Hopt | apply Hstrict; lia].
    + erewrite io_bind_run; [| unfold evaluate; now rewrite Hmed].
      erewrite io_bind_run; [| unfold evaluate; now rewrite Hopt].
      reflexivity.
Qed.

Lemma test_run (i : Z) (w : world) :
  exists r g',
    test_report i r
    /\ test i w = (Ok tt, {| gen := g'; out := out w ++ r |}).
Proof.
  destruct (random_randint 1 100 w) as (size & g1 & Hsize & Hrun1); [lia |].
  destruct (random_randint 10 1000 {| gen := g1; out := out w |})
    as (hi & g2 & Hhi & Hrun2); [lia |].
  destruct (init_Ok size 0 hi g2) as [g3 Hinit]; [left; lia |].
  set (s := built size 0 hi g2) in *.
  destruct (init_constructed _ _ _ _ _ _ Hinit) as (Hs & Hlo & Hup & Hlen).
  pose proof (constructed_nonempty _ _ _ _ _ _ Hinit ltac:(lia)) as Hne.
  assert (Hrun3 : random (__init__ size 0 hi) {| gen := g2; out := out w |}
                  = (Ok s, {| gen := g3; out := out w |})).
  { unfold random. simpl. now rewrite Hinit. }
  assert (Hbounds : lower_bound s < upper_bound s) by lia.
  set (w4 := {| gen := g3; out := out w ++ [line_test (i + 1) size (_items s)] |}).
  assert (Hreport : forall l, verdict s l ->
            test_report i [line_test (i + 1) size (_items s); l]).
  { intros l Hl. exists size, s, l.
    split; [reflexivity |]. split; [lia |]. split; [lia |]. split; [exact Hlo |].
    split; [lia |]. split; [exact Hs | exact Hl]. }
  unfold test.
  erewrite io_bind_run; [| exact Hrun1].
  erewrite io_bind_run; [| exact Hrun2].
  erewrite io_bind_run; [| exact Hrun3].
  erewrite io_bind_run; [| reflexivity].
  simpl out. fold w4.
  destruct (assert_median_run s w4 Hs Hne Hbounds)
    as [[Hscan Hrun5] | (l & Hl & Hnp & Hrun5)].
  - erewrite io_bind_run; [| exact Hrun5].
    erewrite io_bind_run; [| now apply assert_mean_run].
    exists [line_test (i + 1) size (_items s); line_passed], g3.
    split; [now apply Hreport |].
    unfold print, w4. simpl. now rewrite <- app_assoc.
  - erewrite io_bind_run; [| exact Hrun5].
    erewrite io_bind_run; [| now apply assert_mean_run].
    exists [line_test (i + 1) size (_items s); l], g3.
    split; [now apply Hreport |].
    unfold w4. simpl. now rewrite <- app_assoc.
Qed.

Lemma for_each_test_run (js : list Z) (w : world) :
  exists reports g',
    Forall2 test_report js reports
    /\ for_each test js w = (Ok tt, {| gen := g'; out := out w ++ concat reports |}).
Proof.
  revert w. induction js as [|j js IH]; intros w.
  - exists [], (gen w). split; [constructor |].
    simpl. rewrite app_nil_r. now destruct w.
  - destruct (test_run j w) as (r & g1 & Hr & Hrun).
    destruct (IH {| gen := g1; out := out w ++ r |}) as (reports & g' & Hall & Hrest).
    exists (r :: reports), g'. split; [now constructor |].
    simpl for_each. erewrite io_bind_run; [| exact Hrun].
    rewrite Hrest. simpl. now rewrite <- app_assoc.
Qed.

Lemma test_report_lines (i : Z) (r : list line) (l : line) :
  test_report i r -> l ∈ r ->
  (exists size items, l = line_test (i + 1) size items)
  \/ l = line_passed
  \/ exists yields optimum, l = line_failed_median yields optimum /\ (yields < optimum)%Q.
Proof.
  intros (size & s & v & -> & _ & _ & _ & _ & _ & Hv) Hl.
  apply elem_of_cons in Hl as [-> | Hl]; [left; eauto |].
  apply list_elem_of_singleton in Hl as ->. right.
  destruct v; simpl in Hv; try done; [right | left; reflexivity].
  destruct Hv as (_ & _ & _ & Hlt). eauto.
Qed.


(** X14: with a positive [maxsize] the script never raises: it prints the
    seed, an integer of [0, maxsize), and then the reports of ten tests,
    numbered 1 to 10, two lines each; no line reports a failure of the
    mean. *)
Theorem main_prints_seed_and_ten_reports
    (maxsize : Z) (stream : Z -> rng) (w : world) :
  0 < maxsize ->
  exists seed reports g',
    0 <= seed < maxsize
    /\ Forall2 test_report [0; 1; 2; 3; 4; 5; 6; 7; 8; 9] reports
    /\ main maxsize stream w
       = (Ok tt, {| gen := g'; out := out w ++ line_seed seed :: concat reports |})
    /\ length (concat reports) = 20%nat
    /\ forall yields optimum, line_failed_mean yields optimum ∉ concat reports.
Proof.
  intros Hmax.
  set (seed := gen w O mod maxsize).
  destruct (for_each_test_run (range 0 10)
              {| gen := stream seed; out := out w ++ [line_seed seed] |})
    as (reports & g' & Hall & Hrun).
  exists seed, reports, g'.
  split; [apply Z.mod_pos_bound; lia |]. split; [exact Hall |]. split; [| split].
  - unfold main.
    erewrite io_bind_run;
      [| unfold random, randrange; rewrite decide_False by lia; reflexivity].
    erewrite io_bind_run; [| reflexivity].
    erewrite io_bind_run; [| reflexivity].
    cbn [gen out]. fold seed. rewrite Hrun. cbn [gen out]. now rewrite <- app_assoc.
  - clear Hrun. change (range 0 10) with [0; 1; 2; 3; 4; 5; 6; 7; 8; 9] in Hall.
    repeat (inversion Hall as [|? r ? ? Hr Hall']; subst; clear Hall;
            destruct Hr as (? & ? & ? & -> & _); rename Hall' into Hall).
    inversion Hall; subst. reflexivity.
  - intros y o Hin. apply list_elem_of_In, in_concat in Hin as (r & Hr & Hin).
    apply list_elem_of_In in Hr, Hin.
    apply list_elem_of_lookup in Hr as [k Hk].
    destruct (Forall2_lookup_r _ _ _ _ _ Hall Hk) as (i & _ & Hrep).
    destruct (test_report_lines i r _ Hrep Hin)
      as [(? & ? & Heq) | [Heq | (? & ? & Heq & _)]]; discriminate Heq.
Qed.

Lemma main_prints_seed_and_ten_reports_witness :
  exists seed reports g',
    0 <= seed < 2 ^ 63 - 1
    /\ Forall2 test_report [0; 1; 2; 3; 4; 5; 6; 7; 8; 9] reports
    /\ main (2 ^ 63 - 1) (fun _ => zeros) {| gen := zeros; out := [] |}
       = (Ok tt, {| gen := g'; out := [] ++ line_seed seed :: concat reports |})
    /\ length (concat reports) = 20%nat
    /\ forall yields optimum, line_failed_mean yields optimum ∉ concat reports.
Proof.
  apply (main_prints_seed_and_ten_reports (2 ^ 63 - 1) (fun _ => zeros)
           {| gen := zeros; out := [] |}).
  reflexivity.
Defined.

(** With the generator that always returns 0 every sample is [[0]] and
    every test passes. *)
Example ex_main :
  (main (2 ^ 63 - 1) (fun _ => zeros) {| gen := zeros; out := [] |}).1 = Ok tt
  /\ take 5 (out (main (2 ^ 63 - 1) (fun _ => zeros) {| gen := zeros; out := [] |}).2)
     = [line_seed 0; line_test 1 1 [0]; line_passed; line_test 2 1 [0]; line_passed].
Proof. vm_compute. auto. Qed.

(** A test whose only item is the upper bound reports the failure of the
    median. *)
Example ex_test_failure :
  test 0 {| gen := words [0; 0; 10]; out := [] |}
  = (Ok tt, {| gen := words [];
               out := [line_test 1 1 [10]; line_failed_median 0 1] |}).
Proof. vm_compute. reflexivity. Qed.
